(** * LIFX hue conversion factors

    A shallow embedding of [verify_color_conversion.py], the script that
    compares the historical factor [182.0] with [65536 / 360] when a hue in
    degrees is turned into the 16-bit LIFX representation.

    The script works on Python [int]s (unbounded, modelled by [Z]) and Python
    [float]s (IEEE 754 binary64, modelled by [spec_float] at precision 53 and
    maximal exponent 1024, the executable specification of binary64 of the
    Standard Library).  Operations that can raise are given a result type
    that records the exception. *)

From Stdlib Require Import ZArith List String Ascii Bool Lia.
From Stdlib Require Import Floats.SpecFloat.
From Stdlib Require DecimalString HexadecimalString.
Import ListNotations.

Local Open Scope Z_scope.

(** ** The fragment of the Python runtime the script relies on *)

Module Py.

(** Exceptions of the built-in numeric operations. *)
Inductive exn : Type :=
| ZeroDivisionError
| OverflowError
| ValueError.

Inductive result (A : Type) : Type :=
| Ok (a : A)
| Raise (e : exn).

Arguments Ok {A} a.
Arguments Raise {A} e.

Definition bind {A B : Type} (r : result A) (k : A -> result B) : result B :=
  match r with
  | Ok a => k a
  | Raise e => Raise e
  end.

Notation "x <- r ;; k" := (bind r (fun x => k))
  (at level 61, r at next level, right associativity).

(** *** Floats *)

Definition prec : Z := 53.
Definition emax : Z := 1024.

Definition float : Type := spec_float.

Definition fmul : float -> float -> float := SFmul prec emax.
Definition fadd : float -> float -> float := SFadd prec emax.

(** The quotient [p / q] of two positive integers, rounded to the nearest
    binary64 (ties to even), with sign [s]. *)
Definition round_ratio (s : bool) (p q : positive) : float :=
  let '(m, e, l) := SFdiv_core_binary prec emax (Zpos p) 0 (Zpos q) 0 in
  binary_round_aux prec emax s m e l.

(** A decimal literal [m * 10^(-k)] such as [182.0], which the parser reads
    as the nearest binary64. *)
Definition literal (m : Z) (k : nat) : float :=
  match m with
  | Zpos p => round_ratio false p (Z.to_pos (10 ^ Z.of_nat k))
  | _ => S754_zero false
  end.

(** [float(n)] as applied by the mixed [int]/[float] operators
    ([PyLong_AsDouble]): the nearest binary64, [OverflowError] when [n] is
    beyond the largest finite one. *)
Definition of_int (n : Z) : result float :=
  match binary_normalize prec emax n 0 false with
  | S754_infinity _ => Raise OverflowError
  | x => Ok x
  end.

(** [a / b] on two [int]s ([long_true_divide]): the correctly rounded
    quotient. *)
Definition int_truediv (a b : Z) : result float :=
  let s := xorb (a <? 0) (b <? 0) in
  match a, b with
  | _, Z0 => Raise ZeroDivisionError
  | Z0, _ => Ok (S754_zero s)
  | (Zpos p | Zneg p), (Zpos q | Zneg q) =>
      match round_ratio s p q with
      | S754_infinity _ => Raise OverflowError
      | x => Ok x
      end
  end.

(** [n * x] with [n] an [int] and [x] a [float]: [float_mul] after the
    conversion of [n]. *)
Definition int_mul (n : Z) (x : float) : result float :=
  y <- of_int n ;; Ok (fmul y x).

(** C's [fmod]: the remainder of the division truncated toward zero.  It
    is exact and takes the sign of the dividend. *)
Definition fmod (x y : float) : float :=
  match x, y with
  | S754_nan, _ | _, S754_nan => S754_nan
  | S754_infinity _, _ => S754_nan
  | _, S754_zero _ => S754_nan
  | _, S754_infinity _ => x
  | S754_zero _, _ => x
  | S754_finite sx mx ex, S754_finite _ my ey =>
      let ez := Z.min ex ey in
      let nx := Zpos (fst (shl_align mx ex ez)) in
      let ny := Zpos (fst (shl_align my ey ez)) in
      binary_normalize prec emax (cond_Zopp sx (nx mod ny)) ez sx
  end.

Definition is_zero (x : float) : bool :=
  match x with
  | S754_zero _ => true
  | _ => false
  end.

Definition fzero : float := S754_zero false.

(** The sign test [x < 0]. *)
Definition negative (x : float) : bool := SFltb x fzero.

(** [copysign(0.0, w)]. *)
Definition zero_like (w : float) : float :=
  match w with
  | S754_zero s | S754_infinity s | S754_finite s _ _ => S754_zero s
  | S754_nan => S754_zero false
  end.

(** [x % w] on floats ([float_rem]): [fmod], moved to the sign of the
    divisor. *)
Definition float_rem (x w : float) : result float :=
  if is_zero w then Raise ZeroDivisionError
  else
    let m := fmod x w in
    if negb (is_zero m) then
      if xorb (negative w) (negative m) then Ok (fadd m w) else Ok m
    else Ok (zero_like w).

(** [x % n] with [n] an [int]. *)
Definition rem_int (x : float) (n : Z) : result float :=
  w <- of_int n ;; float_rem x w.

(** The non-negative floats in the form the operations return them:
    a mantissa of at most 53 bits over an exponent of at least -1074. *)
Definition plain (x : float) : Prop :=
  match x with
  | S754_zero s | S754_infinity s => s = false
  | S754_nan => False
  | S754_finite s m e => s = false /\ Zpos m < 2 ^ 53 /\ -1074 <= e
  end.

(** [int(x)]: truncation toward zero ([float.__trunc__]). *)
Definition to_int (x : float) : result Z :=
  match x with
  | S754_nan => Raise ValueError
  | S754_infinity _ => Raise OverflowError
  | S754_zero _ => Ok 0
  | S754_finite s m e => Ok (cond_Zopp s (Z.shiftl (Zpos m) e))
  end.


(** *** Text

    A [str] is kept as the bytes of its UTF-8 encoding, which is what
    reaches standard output when the stream encodes in UTF-8, as is taken
    here; lengths and padding count code points, as [len] does. *)

Local Open Scope string_scope.

(** [s * n]. *)
Fixpoint str_repeat (s : string) (n : nat) : string :=
  match n with
  | O => ""
  | S n' => s ++ str_repeat s n'
  end.

(** A byte [10xxxxxx] continues a code point and is not counted. *)
Definition continuation (c : ascii) : bool :=
  let n := N_of_ascii c in (128 <=? n)%N && (n <? 192)%N.

Fixpoint str_len (s : string) : nat :=
  match s with
  | EmptyString => O
  | String c s' => if continuation c then str_len s' else S (str_len s')
  end.

Inductive alignment : Type :=
| AlignLeft    (* [<] *)
| AlignRight.  (* [>] *)

Definition pad (a : alignment) (width : nat) (s : string) : string :=
  let fill := str_repeat " " (width - str_len s) in
  match a with
  | AlignLeft => s ++ fill
  | AlignRight => fill ++ s
  end.

(** [format(s, "<w")] and [format(s, ">w")] on a [str]. *)
Definition format_str (a : alignment) (width : nat) (s : string) : string :=
  pad a width s.

Definition dec_digits (n : N) : string :=
  DecimalString.NilZero.string_of_uint (N.to_uint n).

Definition upper (c : ascii) : ascii :=
  let n := N_of_ascii c in
  if (97 <=? n)%N && (n <=? 122)%N then ascii_of_N (n - 32) else c.

Fixpoint str_upper (s : string) : string :=
  match s with
  | EmptyString => EmptyString
  | String c s' => String (upper c) (str_upper s')
  end.

Definition hex_digits (n : N) : string :=
  str_upper (HexadecimalString.NilZero.string_of_uint (N.to_hex_uint n)).

(** The integer presentation types the script uses: [d] (also the default)
    and [X]. *)
Inductive int_type : Type :=
| TypeDec
| TypeHexUpper.

(** The format specification of an [int]:
    [[align][sign][0][width][type]]. *)
Record int_spec : Type := {
  int_align : alignment;
  int_plus : bool;
  int_zero : bool;
  int_width : nat;
  int_type_of : int_type
}.

Definition int_sign (plus : bool) (n : Z) : string :=
  if (n <? 0)%Z then "-" else if plus then "+" else "".

Definition int_body (t : int_type) (n : Z) : string :=
  match t with
  | TypeDec => dec_digits (Z.abs_N n)
  | TypeHexUpper => hex_digits (Z.abs_N n)
  end.

(** [format(n, spec)] on an [int].  With the [0] flag the zeros go between
    the sign and the digits. *)
Definition format_int (f : int_spec) (n : Z) : string :=
  let sign := int_sign (int_plus f) n in
  let body := int_body (int_type_of f) n in
  if int_zero f then
    sign ++ str_repeat "0" (int_width f - str_len sign - str_len body) ++ body
  else pad (int_align f) (int_width f) (sign ++ body).

(** [<w], [>w], [+d] and [0wX]. *)
Definition spec_left (w : nat) : int_spec :=
  {| int_align := AlignLeft; int_plus := false; int_zero := false;
     int_width := w; int_type_of := TypeDec |}.
Definition spec_right (w : nat) : int_spec :=
  {| int_align := AlignRight; int_plus := false; int_zero := false;
     int_width := w; int_type_of := TypeDec |}.
Definition spec_plus_d : int_spec :=
  {| int_align := AlignRight; int_plus := true; int_zero := false;
     int_width := 0; int_type_of := TypeDec |}.
Definition spec_zero_X (w : nat) : int_spec :=
  {| int_align := AlignRight; int_plus := false; int_zero := true;
     int_width := w; int_type_of := TypeHexUpper |}.

(** *** Floats as text *)

(** The magnitude [m * 2^e] as a fraction of two positive integers. *)
Definition magnitude (m : positive) (e : Z) : Z * Z :=
  if (0 <=? e)%Z then (Z.shiftl (Zpos m) e, 1%Z)
  else (Zpos m, Z.shiftl 1 (- e)).

(** The fraction [num / den] multiplied by [10^u]. *)
Definition scale10 (num den u : Z) : Z * Z :=
  if (0 <=? u)%Z then ((num * 10 ^ u)%Z, den) else (num, (den * 10 ^ (- u))%Z).

(** The integer nearest to [num / den], ties to even. *)
Definition round_half_even (num den : Z) : Z :=
  let q := (num / den)%Z in
  match (2 * (num mod den) ?= den)%Z with
  | Lt => q
  | Gt => (q + 1)%Z
  | Eq => if Z.even q then q else (q + 1)%Z
  end.

Definition zero_fill (w : nat) (s : string) : string :=
  str_repeat "0" (w - String.length s) ++ s.

Definition sign_str (s : bool) : string := if s then "-" else "".

Definition fixed_digits (p : nat) (num den : Z) : string :=
  let unit := (10 ^ Z.of_nat p)%Z in
  let n := round_half_even (num * unit) den in
  dec_digits (Z.to_N (n / unit)) ++
  match p with
  | O => ""
  | _ => "." ++ zero_fill p (dec_digits (Z.to_N (n mod unit)))
  end.

(** [format(x, ".pf")]: [p] digits after the point, correctly rounded. *)
Definition format_fixed (p : nat) (x : float) : string :=
  match x with
  | S754_nan => "nan"
  | S754_infinity s => sign_str s ++ "inf"
  | S754_zero s => sign_str s ++ fixed_digits p 0 1
  | S754_finite s m e =>
      let '(num, den) := magnitude m e in sign_str s ++ fixed_digits p num den
  end.

(** [num / den < 10^u]. *)
Definition below_pow10 (num den u : Z) : bool :=
  let '(n, d) := scale10 num den (- u) in (n <? d)%Z.

(** The decimal exponent [t] of [num / den], that is
    [10^t <= num / den < 10^(t+1)], searched upward from [t]. *)
Fixpoint dec_exponent (fuel : nat) (t num den : Z) : Z :=
  match fuel with
  | O => t
  | S fuel' =>
      if below_pow10 num den (t + 1) then t
      else dec_exponent fuel' (t + 1)%Z num den
  end.

(** The binary64 nearest to [d * 10^k]: what reading the digits back
    gives. *)
Definition read_back (d k : Z) : float :=
  match scale10 d 1 k with
  | (Zpos p, Zpos q) => round_ratio false p q
  | _ => S754_zero false
  end.

(** The shortest digit string that reads back as [x = num / den], as
    [(d, k)] for the decimal [d * 10^k]: with [n] digits the two decimals
    around [x] are tried, the nearer one first; 17 digits always do. *)
Fixpoint shortest (fuel : nat) (n t num den : Z) (x : float) : Z * Z :=
  let k := (t + 1 - n)%Z in
  let '(num', den') := scale10 num den (- k) in
  match fuel with
  | O => (round_half_even num' den', k)
  | S fuel' =>
      let lo := (num' / den')%Z in
      let hi := (lo + 1)%Z in
      let near := round_half_even num' den' in
      let far := if (near =? lo)%Z then hi else lo in
      if SFeqb (read_back near k) x then (near, k)
      else if SFeqb (read_back far k) x then (far, k)
      else shortest fuel' (n + 1)%Z t num den x
  end.

(** Trailing zeros of the digits are moved into the exponent. *)
Fixpoint strip_zeros (fuel : nat) (d k : Z) : Z * Z :=
  match fuel with
  | O => (d, k)
  | S fuel' =>
      if ((d mod 10 =? 0) && negb (d =? 0))%Z
      then strip_zeros fuel' (d / 10)%Z (k + 1)%Z
      else (d, k)
  end.

(** The layout of [repr]: digits [ds] with the decimal point after the
    first [decpt] of them; exponent notation from [1e16] on and below
    [1e-4]; an integral value gets [.0]. *)
Definition repr_layout (ds : string) (decpt : Z) : string :=
  let n := Z.of_nat (String.length ds) in
  if ((decpt <=? -4) || (16 <? decpt))%Z then
    let e := (decpt - 1)%Z in
    match ds with
    | EmptyString => ""
    | String c "" => String c ""
    | String c rest => String c ("." ++ rest)
    end ++ "e" ++ (if (e <? 0)%Z then "-" else "+")
        ++ zero_fill 2 (dec_digits (Z.abs_N e))
  else if (decpt <=? 0)%Z then
    "0." ++ str_repeat "0" (Z.to_nat (- decpt)) ++ ds
  else if (decpt <? n)%Z then
    substring 0 (Z.to_nat decpt) ds ++ "." ++
    substring (Z.to_nat decpt) (Z.to_nat (n - decpt)) ds
  else ds ++ str_repeat "0" (Z.to_nat (decpt - n)) ++ ".0".

(** [repr(x)], which is also [str(x)] and [format(x, "")]. *)
Definition float_repr (x : float) : string :=
  match x with
  | S754_nan => "nan"
  | S754_infinity s => sign_str s ++ "inf"
  | S754_zero s => sign_str s ++ "0.0"
  | S754_finite s m e =>
      let '(num, den) := magnitude m e in
      let t := dec_exponent 640 (-324) num den in
      let '(d, k) := shortest 16 1 t num den (S754_finite false m e) in
      let '(d', k') := strip_zeros 17 d k in
      let ds := dec_digits (Z.to_N d') in
      sign_str s ++ repr_layout ds (Z.of_nat (String.length ds) + k')
  end.

End Py.

(** ** The script *)

Module Script.
Import Py.

Local Open Scope string_scope.

(** *** Standard output

    What a run can observe of its process: arguments, environment, input,
    clock and entropy. *)
Record world : Type := {
  argv : list string;
  environ : list (string * string);
  stdin : string;
  clock : Z;
  entropy : list bool
}.

(** A statement runs in a [world], appends to the text written to standard
    output so far, and returns or raises. *)
Definition io (A : Type) : Type := world -> string -> string * result A.

Definition ret {A : Type} (a : A) : io A := fun _ out => (out, Ok a).

Definition seq {A B : Type} (m : io A) (k : A -> io B) : io B :=
  fun w out =>
    match m w out with
    | (out', Ok a) => k a w out'
    | (out', Raise e) => (out', Raise e)
    end.

Notation "x <~ m ;; k" := (seq m (fun x => k))
  (at level 61, m at next level, right associativity).
Notation "m ;;; k" := (seq m (fun _ => k))
  (at level 61, right associativity).

(** The value of an expression, or the exception it raises. *)
Definition eval {A : Type} (r : result A) : io A := fun _ out => (out, r).

Definition newline : string := String "010" "".

(** [print(s)] and [print()]. *)
Definition print (s : string) : io unit :=
  fun _ out => (out ++ s ++ newline, Ok tt).
Definition print_empty : io unit := print "".

(** [for x in xs: body]. *)
Fixpoint for_each {A : Type} (xs : list A) (body : A -> io unit) : io unit :=
  match xs with
  | [] => ret tt
  | x :: xs' => body x ;;; for_each xs' body
  end.

(** *** Dictionaries

    A [dict] keeps its keys in insertion order; setting a key that is
    present replaces its value in place. *)
Definition dict : Type := list (string * Z).

Fixpoint dict_set (d : dict) (k : string) (v : Z) : dict :=
  match d with
  | [] => [(k, v)]
  | (k', v') :: d' =>
      if String.eqb k k' then (k, v) :: d' else (k', v') :: dict_set d' k v
  end.

(** The display [{k1: v1, k2: v2, ...}]. *)
Definition dict_display (l : list (string * Z)) : dict :=
  fold_left (fun d kv => dict_set d (fst kv) (snd kv)) l [].

Definition items (d : dict) : list (string * Z) := d.

(** *** The constants and tables of [main] *)

Definition original_factor : float := literal 1820 1.

Definition factor_65535 : result float := int_truediv 65535 360.
Definition factor_65536 : result float := int_truediv 65536 360.

Definition test_degrees : list Z := [0; 60; 120; 180; 240; 300; 360]%Z.

Definition colors : dict :=
  dict_display
    [("Red", 0); ("Orange", 39); ("Yellow", 60); ("Green", 120);
     ("Cyan", 180); ("Blue", 240); ("Purple", 275); ("Pink", 350)]%Z.

(** *** The expressions of the two loops

    They read the locals [original_factor] and [factor_65536] of [main],
    which are arguments here. *)

(** [int(deg * original_factor)] *)
Definition old_value (original_factor : float) (deg : Z) : result Z :=
  x <- int_mul deg original_factor ;; to_int x.

(** [int((deg * factor_65536) % 65536)] *)
Definition correct_value (factor_65536 : float) (deg : Z) : result Z :=
  x <- int_mul deg factor_65536 ;;
  r <- rem_int x 65536 ;;
  to_int r.

(** [int((degrees * factor_65536) % 65536)] *)
Definition lifx_value (factor_65536 : float) (degrees : Z) : result Z :=
  x <- int_mul degrees factor_65536 ;;
  r <- rem_int x 65536 ;;
  to_int r.

(** [correct_value - old_value] *)
Definition diff (original_factor factor_65536 : float) (deg : Z) : result Z :=
  old <- old_value original_factor deg ;;
  correct <- correct_value factor_65536 deg ;;
  Ok (correct - old)%Z.

(** The row
    [f"{deg:<10} {old_value:<15} {correct_value:<20} {diff:+d}"]. *)
Definition comparison_row (original_factor factor_65536 : float) (deg : Z)
  : result string :=
  old <- old_value original_factor deg ;;
  correct <- correct_value factor_65536 deg ;;
  let diff := (correct - old)%Z in
  Ok (format_int (spec_left 10) deg ++ " " ++
      format_int (spec_left 15) old ++ " " ++
      format_int (spec_left 20) correct ++ " " ++
      format_int spec_plus_d diff).

(** The degree sign and the rightwards arrow, in UTF-8. *)
Definition degree_sign : string := String "194" (String "176" "").
Definition arrow : string := String "226" (String "134" (String "146" "")).

(** The row [f"{name:<10} {degrees:>3}(degree sign) (arrow)
    {lifx_value:>5} (0x{lifx_value:04X})"]. *)
Definition color_row (factor_65536 : float) (name : string) (degrees : Z)
  : result string :=
  v <- lifx_value factor_65536 degrees ;;
  Ok (format_str AlignLeft 10 name ++ " " ++
      format_int (spec_right 3) degrees ++ degree_sign ++ " " ++ arrow ++
      " " ++ format_int (spec_right 5) v ++
      " (0x" ++ format_int (spec_zero_X 4) v ++ ")").

(** *** [main] *)

Definition main : io unit :=
  print "LIFX Color Conversion Factor Analysis" ;;;
  print (str_repeat "=" 50) ;;;
  factor_65535 <~ eval factor_65535 ;;
  factor_65536 <~ eval factor_65536 ;;
  print ("Original magic number: " ++ float_repr original_factor) ;;;
  print ("65535 / 360 = " ++ format_fixed 10 factor_65535) ;;;
  print ("65536 / 360 = " ++ format_fixed 10 factor_65536) ;;;
  print_empty ;;;
  print "Conversion comparison for various hue values:" ;;;
  print (str_repeat "-" 50) ;;;
  print (format_str AlignLeft 10 "Degrees" ++ " " ++
         format_str AlignLeft 15 "Old (182.0)" ++ " " ++
         format_str AlignLeft 20 "Correct (65536/360)" ++ " " ++
         "Difference") ;;;
  print (str_repeat "-" 50) ;;;
  for_each test_degrees (fun deg =>
    row <~ eval (comparison_row original_factor factor_65536 deg) ;;
    print row) ;;;
  print_empty ;;;
  print "Explanation:" ;;;
  print "- The magic number 182.0 was an approximation of 65535/360 = 182.04166..." ;;;
  print "- However, LIFX documentation recommends using 65536/360 = 182.04444..." ;;;
  print "- This provides better rounding behavior and wrapping at 360 degrees" ;;;
  print "- The difference is small but can accumulate in color transitions" ;;;
  print_empty ;;;
  print "Named colors in LIFX u16 format:" ;;;
  print (str_repeat "-" 50) ;;;
  for_each (items colors) (fun kv =>
    let '(name, degrees) := kv in
    row <~ eval (color_row factor_65536 name degrees) ;;
    print row).

(** Running the script: the text on standard output and whether [main]
    returned. *)
Definition run (w : world) : string * result unit := main w "".

Definition stdout (w : world) : string := fst (run w).

(** *** Quantities the specification speaks of *)

(** The specification's reading of the conversion: the product is
    truncated first, and the integer is then reduced modulo 65536, that is
    [int(deg * factor_65536) % 65536]. *)
Definition truncate_then_wrap (factor_65536 : float) (deg : Z) : result Z :=
  x <- int_mul deg factor_65536 ;;
  n <- to_int x ;;
  Ok (n mod 65536)%Z.

(** The conversion before the wrap: [int(deg * factor_65536)]. *)
Definition pre_wrap_value (factor_65536 : float) (deg : Z) : result Z :=
  x <- int_mul deg factor_65536 ;; to_int x.

(** [float(65536)], the divisor of the wrap. *)
Definition wrap_divisor : float := S754_finite false 4503599627370496 (-36).

(** The exact quantity [floor(d * 65536 / 360) mod 65536]. *)
Definition exact_hue (d : Z) : Z := (d * 65536 / 360) mod 65536.

(** Every degree the script converts. *)
Definition program_degrees : list Z := test_degrees ++ map snd (items colors).

(** The integers [0, 1, ..., n-1]. *)
Definition upto (n : nat) : list Z := map Z.of_nat (List.seq 0 n).

(** A sign followed by the decimal digits of the absolute value. *)
Definition signed_decimal (n : Z) : string :=
  (if (0 <=? n)%Z then "+" else "-") ++ dec_digits (Z.abs_N n).

(** Lines of text, each ended by a newline. *)
Definition unlines (ls : list string) : string :=
  String.concat "" (map (fun l => l ++ newline) ls).

(** The report up to the rows of the named colours... *)
Definition report_head : list string :=
  [ "LIFX Color Conversion Factor Analysis";
    "==================================================";
    "Original magic number: 182.0";
    "65535 / 360 = 182.0416666667";
    "65536 / 360 = 182.0444444444";
    "";
    "Conversion comparison for various hue values:";
    "--------------------------------------------------";
    "Degrees    Old (182.0)     Correct (65536/360)  Difference";
    "--------------------------------------------------";
    "0          0               0                    +0";
    "60         10920           10922                +2";
    "120        21840           21845                +5";
    "180        32760           32768                +8";
    "240        43680           43690                +10";
    "300        54600           54613                +13";
    "360        65520           0                    -65520";
    "";
    "Explanation:";
    "- The magic number 182.0 was an approximation of 65535/360 = 182.04166...";
    "- However, LIFX documentation recommends using 65536/360 = 182.04444...";
    "- This provides better rounding behavior and wrapping at 360 degrees";
    "- The difference is small but can accumulate in color transitions";
    "";
    "Named colors in LIFX u16 format:";
    "--------------------------------------------------" ].

(** ... and those rows. *)
Definition report_colors : list string :=
  [ "Red          0" ++ degree_sign ++ " " ++ arrow ++ "     0 (0x0000)";
    "Orange      39" ++ degree_sign ++ " " ++ arrow ++ "  7099 (0x1BBB)";
    "Yellow      60" ++ degree_sign ++ " " ++ arrow ++ " 10922 (0x2AAA)";
    "Green      120" ++ degree_sign ++ " " ++ arrow ++ " 21845 (0x5555)";
    "Cyan       180" ++ degree_sign ++ " " ++ arrow ++ " 32768 (0x8000)";
    "Blue       240" ++ degree_sign ++ " " ++ arrow ++ " 43690 (0xAAAA)";
    "Purple     275" ++ degree_sign ++ " " ++ arrow ++ " 50062 (0xC38E)";
    "Pink       350" ++ degree_sign ++ " " ++ arrow ++ " 63715 (0xF8E3)" ].

(** Checks run over a range of degrees. *)
Definition result_eqb (a b : result Z) : bool :=
  match a, b with
  | Ok x, Ok y => (x =? y)%Z
  | _, _ => false
  end.

Definition wrap_agrees (d : Z) : bool :=
  result_eqb (f <- factor_65536 ;; correct_value f d)
             (f <- factor_65536 ;; truncate_then_wrap f d).

Definition dominates (d : Z) : bool :=
  match f <- factor_65536 ;; pre_wrap_value f d,
        old_value original_factor d with
  | Ok p, Ok o => (o <=? p)%Z && (p =? d * 65536 / 360)%Z
                  && (o =? d * 182)%Z
  | _, _ => false
  end.

(** *** Further checks *)

(** The degrees from -3600 to 3600, ten turns either way, by index. *)
Definition turns (i : Z) : Z := (i - 3600)%Z.

Definition exact_on_turns (i : Z) : bool :=
  result_eqb (f <- factor_65536 ;; correct_value f (turns i))
             (Ok (exact_hue (turns i))).

Definition old_on_turns (i : Z) : bool :=
  result_eqb (old_value original_factor (turns i)) (Ok (182 * turns i)%Z).

Definition diff_closed (d : Z) : bool :=
  result_eqb (f <- factor_65536 ;; diff original_factor f d)
             (Ok (2 * d / 45)%Z).

(** The first three columns of a row of the comparison table, and of its
    header. *)
Definition comparison_columns (deg old correct : Z) : string :=
  format_int (spec_left 10) deg ++ " " ++
  format_int (spec_left 15) old ++ " " ++
  format_int (spec_left 20) correct ++ " ".

Definition header_columns : string :=
  format_str AlignLeft 10 "Degrees" ++ " " ++
  format_str AlignLeft 15 "Old (182.0)" ++ " " ++
  format_str AlignLeft 20 "Correct (65536/360)" ++ " ".

Definition columns_aligned (d : Z) : bool :=
  match old_value original_factor d,
        f <- factor_65536 ;; correct_value f d,
        f <- factor_65536 ;; comparison_row original_factor f d with
  | Ok old, Ok correct, Ok row =>
      String.eqb row (comparison_columns d old correct
                      ++ signed_decimal (correct - old))
      && Nat.eqb (str_len (comparison_columns d old correct)) 48
  | _, _, _ => false
  end.

(** What follows the name in a row of the named colours. *)
Definition color_fields (degrees v : Z) : string :=
  " " ++ format_int (spec_right 3) degrees ++ degree_sign ++ " " ++ arrow ++
  " " ++ format_int (spec_right 5) v ++
  " (0x" ++ format_int (spec_zero_X 4) v ++ ")".

Definition fields_aligned (d : Z) : bool :=
  match f <- factor_65536 ;; lifx_value f d with
  | Ok v => Nat.eqb (str_len (color_fields d v)) 22
  | Raise _ => false
  end.

End Script.

(** ** Properties *)

Import Py Script.

Local Open Scope string_scope.

(** Membership in a literal list is settled case by case. *)
Ltac each_member H :=
  simpl in H;
  repeat (destruct H as [H | H]; [subst | ]);
  try contradiction.

Section Ranges.

Variable check : Z -> bool.

Lemma in_upto (n : nat) (d : Z) :
  (0 <= d < Z.of_nat n)%Z -> In d (upto n).
Proof.
  intros Hd. unfold upto.
  replace d with (Z.of_nat (Z.to_nat d)) by lia.
  apply in_map, in_seq. lia.
Qed.

Lemma checked_upto (n : nat) :
  forallb check (upto n) = true ->
  forall d, (0 <= d < Z.of_nat n)%Z -> check d = true.
Proof.
  intros Hall d Hd.
  rewrite forallb_forall in Hall.
  apply Hall, in_upto, Hd.
Qed.

End Ranges.

(** *** Binary64 arithmetic

    What the proofs need of rounding: results are [plain], and a value
    that already fits is normalized without loss. *)

Section Binary64.

Local Open Scope Z_scope.

Lemma fexp_eq (e : Z) : fexp prec emax e = Z.max (e - 53) (-1074).
Proof. reflexivity. Qed.

Lemma digits2_size (p : positive) : digits2_pos p = Pos.size p.
Proof. induction p; simpl; congruence. Qed.

Lemma Zdigits2_log2 (p : positive) :
  Zdigits2 (Zpos p) = Z.log2 (Zpos p) + 1.
Proof.
  simpl. rewrite digits2_size.
  destruct p; simpl; try rewrite Pos2Z.inj_succ; lia.
Qed.

Lemma Zdigits2_le (m k : Z) :
  0 <= m -> 0 <= k -> (Zdigits2 m <= k <-> m < 2 ^ k).
Proof.
  intros Hm Hk. destruct m as [ | p | p]; try lia.
  - simpl. split; intros _; [apply Z.pow_pos_nonneg | ]; lia.
  - rewrite Zdigits2_log2.
    pose proof (Z.log2_lt_pow2 (Zpos p) k). lia.
Qed.

Lemma shr_1_m (r : shr_record) :
  0 <= shr_m r -> shr_m (shr_1 r) = shr_m r / 2.
Proof.
  destruct r as [m rb sb]. simpl. intros Hm.
  rewrite <- Z.div2_div.
  destruct m as [ | [p | p | ] | p]; try reflexivity; lia.
Qed.

Lemma iter_shr_m (p : positive) :
  forall r, 0 <= shr_m r ->
            shr_m (iter_pos shr_1 p r) = shr_m r / 2 ^ Zpos p.
Proof.
  induction p as [p IH | p IH | ]; intros r Hr; simpl iter_pos.
  - assert (H1 : 0 <= shr_m (shr_1 r)).
    { rewrite shr_1_m by assumption. apply Z.div_pos; lia. }
    assert (H2 : 0 <= shr_m (iter_pos shr_1 p (shr_1 r))).
    { rewrite IH by assumption. apply Z.div_pos; lia. }
    rewrite IH, IH, shr_1_m by assumption.
    rewrite !Z.div_div by lia.
    f_equal.
    replace (Zpos p~1) with (1 + Zpos p + Zpos p) by lia.
    rewrite !Z.pow_add_r by lia. lia.
  - assert (H2 : 0 <= shr_m (iter_pos shr_1 p r)).
    { rewrite IH by assumption. apply Z.div_pos; lia. }
    rewrite IH, IH by assumption.
    rewrite !Z.div_div by lia.
    f_equal.
    replace (Zpos p~0) with (Zpos p + Zpos p) by lia.
    rewrite !Z.pow_add_r by lia. lia.
  - rewrite shr_1_m by assumption. reflexivity.
Qed.

Lemma shr_record_of_loc_m (m : Z) (l : location) :
  shr_m (shr_record_of_loc m l) = m.
Proof. destruct l as [ | [ | | ]]; reflexivity. Qed.

Lemma shr_fexp_m (m e : Z) (l : location) :
  0 <= m ->
  let n := fexp prec emax (Zdigits2 m + e) - e in
  (n <= 0 -> shr_m (fst (shr_fexp prec emax m e l)) = m /\
             snd (shr_fexp prec emax m e l) = e) /\
  (0 < n -> shr_m (fst (shr_fexp prec emax m e l)) = m / 2 ^ n /\
            snd (shr_fexp prec emax m e l) = e + n).
Proof.
  intros Hm n. unfold shr_fexp. fold n.
  destruct n as [ | p | p] eqn:Hn; unfold shr; simpl fst; simpl snd.
  - split; [ | lia]. intros _. now rewrite shr_record_of_loc_m.
  - split; [lia | ]. intros _. split; [ | reflexivity].
    rewrite iter_shr_m; rewrite shr_record_of_loc_m; auto.
  - split; [ | lia]. intros _. now rewrite shr_record_of_loc_m.
Qed.

Lemma round_nearest_even_near (m : Z) (l : location) :
  m <= round_nearest_even m l <= m + 1.
Proof.
  destruct l as [ | [ | | ]]; simpl; try lia.
  destruct (Z.even m); lia.
Qed.

(** After the first shift the mantissa fits 53 bits. *)
Lemma shr_fexp_fits (m e : Z) (l : location) :
  0 <= m ->
  0 <= shr_m (fst (shr_fexp prec emax m e l)) < 2 ^ 53 /\
  -1074 <= snd (shr_fexp prec emax m e l).
Proof.
  intros Hm.
  pose proof (shr_fexp_m m e l Hm) as [Hle Hgt].
  pose proof (fexp_eq (Zdigits2 m + e)) as Hf.
  set (n := fexp prec emax (Zdigits2 m + e) - e) in *.
  assert (Hd : 0 <= Zdigits2 m) by (destruct m; simpl; lia).
  destruct (Z.leb_spec n 0) as [Hn | Hn].
  - destruct (Hle Hn) as [-> ->].
    split; [ | lia]. split; [lia | ].
    apply Zdigits2_le; lia.
  - destruct (Hgt Hn) as [-> ->].
    split; [ | lia]. split; [apply Z.div_pos; lia | ].
    apply Z.div_lt_upper_bound; [lia | ].
    rewrite <- Z.pow_add_r by lia.
    apply Zdigits2_le; lia.
Qed.

Lemma Zdigits2_pow2_53 : Zdigits2 (2 ^ 53) = 54.
Proof. reflexivity. Qed.

Lemma binary_round_aux_plain (m e : Z) (l : location) :
  0 <= m -> plain (binary_round_aux prec emax false m e l).
Proof.
  intros Hm. unfold binary_round_aux.
  pose proof (shr_fexp_fits m e l Hm) as [Hm1 He1].
  destruct (shr_fexp prec emax m e l) as [r1 e1]. simpl fst in *; simpl snd in *.
  pose proof (round_nearest_even_near (shr_m r1) (loc_of_shr_record r1)) as Hr.
  set (m2 := round_nearest_even (shr_m r1) (loc_of_shr_record r1)) in *.
  assert (Hm2 : 0 <= m2) by lia.
  pose proof (shr_fexp_m m2 e1 loc_Exact Hm2) as [Hle Hgt].
  pose proof (fexp_eq (Zdigits2 m2 + e1)) as Hf.
  assert (H3 : 0 <= shr_m (fst (shr_fexp prec emax m2 e1 loc_Exact)) < 2 ^ 53 /\
               -1074 <= snd (shr_fexp prec emax m2 e1 loc_Exact)).
  { destruct (Z.eq_dec m2 (2 ^ 53)) as [Heq | Hne].
    - rewrite Heq in *. rewrite Zdigits2_pow2_53 in *.
      destruct Hgt as [-> ->]; [lia | ].
      replace (fexp prec emax (54 + e1) - e1) with 1 by lia.
      split; [ | lia]. change (2 ^ 53 / 2 ^ 1) with (2 ^ 52). lia.
    - assert (Hd : Zdigits2 m2 <= 53) by (apply Zdigits2_le; lia).
      destruct Hle as [-> ->]; lia. }
  destruct (shr_fexp prec emax m2 e1 loc_Exact) as [r3 e3].
  simpl fst in *; simpl snd in *.
  unfold plain.
  destruct (shr_m r3) as [ | p | p].
  - reflexivity.
  - destruct (e3 <=? emax - prec); [ | reflexivity].
    repeat split; lia.
  - lia.
Qed.

Lemma iter_xO (d m : positive) :
  Zpos (Pos.iter xO m d) = Zpos m * 2 ^ Zpos d.
Proof.
  induction d as [ | d IH] using Pos.peano_ind.
  - simpl. lia.
  - rewrite Pos.iter_succ, Pos2Z.inj_xO, IH, Pos2Z.inj_succ, Z.pow_succ_r; lia.
Qed.

(** Aligning to a smaller exponent keeps the value. *)
Lemma shl_align_value (m : positive) (e e' : Z) :
  e' <= e ->
  Zpos (fst (shl_align m e e')) = Zpos m * 2 ^ (e - e') /\
  snd (shl_align m e e') = e'.
Proof.
  intros He. unfold shl_align.
  destruct (e' - e) as [ | d | d] eqn:Hd; simpl fst; simpl snd; try lia.
  - replace (e - e') with 0 by lia. simpl. lia.
  - rewrite iter_xO. replace (e - e') with (Zpos d) by lia. lia.
Qed.

Lemma Zdigits2_shift (m : positive) (k : Z) :
  0 <= k -> Zdigits2 (Zpos m * 2 ^ k) = Zdigits2 (Zpos m) + k.
Proof.
  intros Hk.
  assert (Hp : 0 < Zpos m * 2 ^ k) by (apply Z.mul_pos_pos; lia).
  destruct (Zpos m * 2 ^ k) as [ | p | p] eqn:Hprod; try lia.
  rewrite !Zdigits2_log2, <- Hprod, Z.log2_mul_pow2; lia.
Qed.

Lemma shr_fexp_still (m e : Z) (l : location) :
  fexp prec emax (Zdigits2 m + e) - e <= 0 ->
  shr_fexp prec emax m e l = (shr_record_of_loc m l, e).
Proof.
  intros Hn. unfold shr_fexp, shr.
  destruct (fexp prec emax (Zdigits2 m + e) - e); try reflexivity; lia.
Qed.

(** A value that fits 53 bits above the least exponent is normalized
    without loss. *)
Lemma binary_normalize_exact (r : positive) (e : Z) :
  Zpos r < 2 ^ 53 -> -1074 <= e <= 0 ->
  exists m' e',
    binary_normalize prec emax (Zpos r) e false = S754_finite false m' e' /\
    e' <= e /\ Zpos m' = Zpos r * 2 ^ (e - e').
Proof.
  intros Hr He. unfold binary_normalize, binary_round.
  set (t := fexp prec emax (Zpos (digits2_pos r) + e)).
  assert (Hd : Zdigits2 (Zpos r) <= 53) by (apply Zdigits2_le; lia).
  change (Zdigits2 (Zpos r)) with (Zpos (digits2_pos r)) in Hd.
  assert (Ht : t <= e).
  { unfold t. rewrite fexp_eq. lia. }
  destruct (shl_align_value r e t Ht) as [Hm Hs].
  destruct (shl_align r e t) as [mz ez]. simpl fst in *; simpl snd in *. subst ez.
  assert (Hstill : fexp prec emax (Zdigits2 (Zpos mz) + t) - t <= 0).
  { rewrite Hm, Zdigits2_shift by lia.
    change (Zdigits2 (Zpos r)) with (Zpos (digits2_pos r)).
    replace (Zpos (digits2_pos r) + (e - t) + t) with (Zpos (digits2_pos r) + e)
      by lia.
    fold t. lia. }
  unfold binary_round_aux.
  rewrite (shr_fexp_still _ _ _ Hstill).
  unfold shr_record_of_loc, loc_of_shr_record, shr_m, round_nearest_even.
  rewrite (shr_fexp_still _ _ _ Hstill).
  unfold shr_record_of_loc, shr_m.
  replace (t <=? emax - prec) with true
    by (symmetry; apply Z.leb_le; unfold emax, prec; lia).
  exists mz, t. repeat split; assumption.
Qed.

Lemma div_of_mod (a b c : Z) :
  0 < b -> 0 < c -> (a mod (b * c)) / b = (a / b) mod c.
Proof.
  intros Hb Hc.
  rewrite Z.rem_mul_r by lia.
  rewrite Z.mul_comm, Z.div_add by lia.
  rewrite Z.div_small by (apply Z.mod_pos_bound; lia). lia.
Qed.

Lemma of_int_65536 : of_int 65536 = Ok wrap_divisor.
Proof. reflexivity. Qed.

(** Truncating [m * 2^(e+k)] at [2^k]. *)
Lemma shiftl_scaled (m e k : Z) :
  0 <= k -> 0 <= e + k -> (m * 2 ^ (e + k)) / 2 ^ k = Z.shiftl m e.
Proof.
  intros Hk Hek.
  assert (H1 : 0 < 2 ^ k) by (apply Z.pow_pos_nonneg; lia).
  assert (H2 : 0 < 2 ^ (e + k)) by (apply Z.pow_pos_nonneg; lia).
  destruct (Z.leb_spec 0 e) as [He | He].
  - rewrite Z.shiftl_mul_pow2 by lia.
    rewrite Z.pow_add_r by lia.
    rewrite Z.mul_assoc.
    rewrite Z.div_mul by (apply Z.pow_nonzero; lia). reflexivity.
  - assert (H3 : 0 < 2 ^ (- e)) by (apply Z.pow_pos_nonneg; lia).
    rewrite Z.shiftl_div_pow2 by lia.
    replace (2 ^ k) with (2 ^ (- e) * 2 ^ (e + k))
      by (rewrite <- Z.pow_add_r by lia; f_equal; lia).
    rewrite Z.div_mul_cancel_r by lia. reflexivity.
Qed.

(** [fmod] by 65536 on a non-negative binary64, then truncation. *)
Lemma fmod_wrap (m : positive) (e : Z) :
  Zpos m < 2 ^ 53 -> -1074 <= e ->
  (fmod (S754_finite false m e) wrap_divisor = S754_zero false /\
   Z.shiftl (Zpos m) e mod 65536 = 0) \/
  (exists m' e',
     fmod (S754_finite false m e) wrap_divisor = S754_finite false m' e' /\
     Z.shiftl (Zpos m') e' = Z.shiftl (Zpos m) e mod 65536).
Proof.
  intros Hm He. unfold fmod, wrap_divisor.
  set (ez := Z.min e (-36)).
  assert (Hez : -1074 <= ez <= -36) by lia.
  destruct (shl_align_value m e ez ltac:(lia)) as [Hx _].
  destruct (shl_align_value 4503599627370496 (-36) ez ltac:(lia)) as [Hy _].
  rewrite Hx, Hy. clear Hx Hy.
  set (k := - ez).
  assert (Hny : 4503599627370496 * 2 ^ (-36 - ez) = 2 ^ k * 2 ^ 16).
  { change 4503599627370496 with (2 ^ 52).
    rewrite <- !Z.pow_add_r by lia. f_equal. lia. }
  rewrite Hny. replace (e - ez) with (e + k) by lia.
  set (nx := Zpos m * 2 ^ (e + k)).
  assert (Hk : 0 < 2 ^ k) by (apply Z.pow_pos_nonneg; lia).
  assert (Hdiv : (nx mod (2 ^ k * 2 ^ 16)) / 2 ^ k =
                 Z.shiftl (Zpos m) e mod 65536).
  { rewrite div_of_mod by lia. unfold nx.
    rewrite shiftl_scaled by lia. reflexivity. }
  assert (Hr : 0 <= nx mod (2 ^ k * 2 ^ 16) < 2 ^ 53).
  { assert (Hpos : 0 < 2 ^ k * 2 ^ 16) by lia.
    pose proof (Z.mod_pos_bound nx _ Hpos) as Hb.
    split; [lia | ].
    destruct (Z.leb_spec e (-36)) as [Hle | Hgt].
    - assert (Hnx : nx = Zpos m).
      { unfold nx. replace (e + k) with 0 by lia. lia. }
      assert (0 <= nx) by lia.
      pose proof (Z.mod_le nx _ ltac:(lia) Hpos). lia.
    - replace k with 36 in * by lia.
      change (2 ^ 36 * 2 ^ 16) with (2 ^ 52) in *.
      assert (2 ^ 52 < 2 ^ 53) by (apply Z.pow_lt_mono_r; lia). lia. }
  destruct (nx mod (2 ^ k * 2 ^ 16)) as [ | r | r] eqn:Hrem; try lia.
  - left. split; [reflexivity | ].
    rewrite <- Hdiv. apply Z.div_0_l. lia.
  - right. unfold cond_Zopp.
    destruct (binary_normalize_exact r ez ltac:(lia) ltac:(lia))
      as (m' & e' & Hn & He' & Hm').
    exists m', e'. split; [exact Hn | ].
    rewrite <- Hdiv, Hm'.
    rewrite Z.shiftl_div_pow2 by lia.
    replace (- e') with (k + (ez - e')) by lia.
    rewrite Z.pow_add_r by lia.
    rewrite Z.div_mul_cancel_r; lia.
Qed.

(** On a non-negative binary64 the two orders of truncation and wrap
    agree. *)
Lemma wrap_of_plain (x : float) :
  plain x -> (forall s, x <> S754_infinity s) ->
  (r <- rem_int x 65536 ;; to_int r) = (n <- to_int x ;; Ok (n mod 65536)).
Proof.
  intros Hx Hfin. unfold rem_int. rewrite of_int_65536.
  destruct x as [s | s | | s m e]; simpl in Hx.
  - subst s. reflexivity.
  - now destruct (Hfin s).
  - contradiction.
  - destruct Hx as (-> & Hm & He).
    unfold bind at 2 3. unfold to_int at 2. unfold cond_Zopp.
    unfold bind at 1. unfold float_rem.
    change (is_zero wrap_divisor) with false. cbv iota.
    destruct (fmod_wrap m e Hm He) as [[Hf Hv] | (m' & e' & Hf & Hv)];
      rewrite Hf.
    + rewrite Hv. reflexivity.
    + rewrite <- Hv. reflexivity.
Qed.

Lemma of_int_plain (n : Z) (y : float) :
  0 <= n -> of_int n = Ok y -> plain y.
Proof.
  intros Hn. unfold of_int, binary_normalize.
  destruct n as [ | p | p]; try lia.
  - intros H. injection H as <-. reflexivity.
  - unfold binary_round.
    destruct (shl_align p 0 _) as [mz ez].
    pose proof (binary_round_aux_plain (Zpos mz) ez loc_Exact ltac:(lia)) as Hp.
    destruct (binary_round_aux prec emax false (Zpos mz) ez loc_Exact);
      intros H; try discriminate; injection H as <-; exact Hp.
Qed.

Lemma fmul_plain (x y : float) : plain x -> plain y ->
  match fmul x y with S754_nan => True | z => plain z end.
Proof.
  intros Hx Hy.
  destruct x as [sx | sx | | sx mx ex], y as [sy | sy | | sy my ey];
    simpl in Hx, Hy; try contradiction;
    repeat match goal with
           | H : _ /\ _ |- _ => destruct H as [? H]
           end; subst; try exact I; try reflexivity.
  unfold fmul, SFmul. simpl xorb.
  pose proof (binary_round_aux_plain (Zpos (mx * my)) (ex + ey) loc_Exact
                ltac:(lia)) as Hp.
  destruct (binary_round_aux prec emax false (Zpos (mx * my)) (ex + ey) loc_Exact);
    try exact Hp. exact I.
Qed.

End Binary64.

Lemma result_eqb_eq (a b : result Z) : result_eqb a b = true -> a = b.
Proof.
  destruct a as [x | e], b as [y | e']; simpl; try discriminate.
  intros H. apply Z.eqb_eq in H. now subst.
Qed.

Lemma factor_65536_value :
  factor_65536 = Ok (S754_finite false 6405119470038039 (-45)).
Proof. reflexivity. Qed.

Lemma original_factor_value :
  original_factor = S754_finite false 6403555720167424 (-45).
Proof. reflexivity. Qed.

(** [+d] writes the sign, then the digits, and pads nothing. *)
Lemma format_plus_d (n : Z) : format_int spec_plus_d n = signed_decimal n.
Proof.
  unfold format_int, signed_decimal, int_sign, pad; simpl.
  destruct (Z.ltb_spec n 0), (Z.leb_spec 0 n); try lia; reflexivity.
Qed.

(** A row of the comparison table ends with the signed difference. *)
Lemma comparison_row_signed (f0 f : float) (d old correct : Z) :
  old_value f0 d = Ok old ->
  correct_value f d = Ok correct ->
  comparison_row f0 f d =
  Ok (format_int (spec_left 10) d ++ " " ++
      format_int (spec_left 15) old ++ " " ++
      format_int (spec_left 20) correct ++ " " ++
      signed_decimal (correct - old)).
Proof.
  intros Hold Hcorrect. unfold comparison_row.
  rewrite Hold, Hcorrect. unfold bind.
  rewrite format_plus_d. reflexivity.
Qed.

(** The whole text of a run. *)
Lemma run_report (w : world) :
  run w = (unlines (report_head ++ report_colors), Ok tt).
Proof. vm_compute. reflexivity. Qed.

Lemma wrap_agrees_upto_360 : forallb wrap_agrees (upto 361) = true.
Proof. vm_compute. reflexivity. Qed.

Lemma dominates_upto_360 : forallb dominates (upto 361) = true.
Proof. vm_compute. reflexivity. Qed.

(** *** The conversion on the degree samples *)

(** C1: for every degree sample [d] of [test_degrees], the computed
    [correct_value] is [floor(d * 65536 / 360) mod 65536], and that value
    lies in [0, 65535]. *)
Theorem correct_value_on_samples (d : Z) :
  In d test_degrees ->
  (f <- factor_65536 ;; correct_value f d) = Ok (exact_hue d) /\
  (f <- factor_65536 ;; truncate_then_wrap f d) = Ok (exact_hue d) /\
  (0 <= exact_hue d <= 65535)%Z.
Proof.
  intros Hd. split; [ | split].
  - each_member Hd; vm_compute; reflexivity.
  - each_member Hd; vm_compute; reflexivity.
  - unfold exact_hue.
    pose proof (Z.mod_pos_bound (d * 65536 / 360) 65536). lia.
Qed.

Lemma correct_value_on_samples_witness :
  (f <- factor_65536 ;; correct_value f 300) = Ok (exact_hue 300) /\
  (f <- factor_65536 ;; truncate_then_wrap f 300) = Ok (exact_hue 300) /\
  (0 <= exact_hue 300 <= 65535)%Z.
Proof.
  apply (correct_value_on_samples 300). simpl. tauto.
Defined.

(** *** The order of truncation and wrap *)


(** When the product overflows the two orders raise different exceptions. *)
Lemma truncation_first_differs_on_overflow :
  (f <- factor_65536 ;; correct_value f (10 ^ 308)) = Raise ValueError /\
  (f <- factor_65536 ;; truncate_then_wrap f (10 ^ 308)) = Raise OverflowError.
Proof. split; vm_compute; reflexivity. Qed.

(** On every non-negative degree whose product is finite the two orders
    agree, whatever non-negative factor is used. *)
Lemma orders_agree (f : float) (d : Z) :
  plain f -> (0 <= d)%Z ->
  (forall s, int_mul d f <> Ok (S754_infinity s)) ->
  correct_value f d = truncate_then_wrap f d.
Proof.
  intros Hf Hd Hfin.
  unfold correct_value, truncate_then_wrap, int_mul in *.
  destruct (of_int d) as [y | ex] eqn:Hy; [ | reflexivity].
  pose proof (fmul_plain y f (of_int_plain d y Hd Hy) Hf) as Hx.
  change (y0 <- Ok y ;; Ok (fmul y0 f)) with (Ok (fmul y f)) in *.
  change ((r <- rem_int (fmul y f) 65536 ;; to_int r) =
          (n <- to_int (fmul y f) ;; Ok (n mod 65536)%Z)).
  destruct (fmul y f) as [s | s | | s m e] eqn:Hm;
    try (apply wrap_of_plain; [exact Hx | discriminate]).
  - now destruct (Hfin s).
  - reflexivity.
Qed.

Lemma orders_agree_upto_360 (d : Z) :
  (0 <= d <= 360)%Z ->
  (f <- factor_65536 ;; correct_value f d) =
  (f <- factor_65536 ;; truncate_then_wrap f d).
Proof.
  intros Hd. apply result_eqb_eq.
  apply (checked_upto wrap_agrees 361 wrap_agrees_upto_360).
  simpl. lia.
Qed.



(** C8: for every degree the script converts, all of them non-negative,
    truncating the product and then reducing modulo 65536 gives the same
    integer as reducing the product modulo 65536 and then truncating. *)
Theorem orders_coincide_on_program_degrees (d : Z) :
  In d program_degrees ->
  (0 <= d)%Z /\
  exists v,
    (f <- factor_65536 ;; truncate_then_wrap f d) = Ok v /\
    (f <- factor_65536 ;; correct_value f d) = Ok v.
Proof.
  intros Hd.
  each_member Hd; (split; [lia | eexists; split; vm_compute; reflexivity]).
Qed.

Lemma orders_coincide_on_program_degrees_witness :
  (0 <= 275)%Z /\
  exists v,
    (f <- factor_65536 ;; truncate_then_wrap f 275) = Ok v /\
    (f <- factor_65536 ;; correct_value f 275) = Ok v.
Proof.
  apply (orders_coincide_on_program_degrees 275). vm_compute. tauto.
Defined.

(** *** The rows of the comparison table *)

(** C3: at 360 degrees the old value is 65520, the correct value wraps to
    0, and the row of the table ends with the difference [-65520]. *)
Theorem row_360 :
  old_value original_factor 360 = Ok 65520%Z /\
  (f <- factor_65536 ;; correct_value f 360) = Ok 0%Z /\
  (f <- factor_65536 ;; diff original_factor f 360) = Ok (-65520)%Z /\
  format_int spec_plus_d (-65520) = "-65520" /\
  (f <- factor_65536 ;; comparison_row original_factor f 360) =
  Ok "360        65520           0                    -65520" /\
  forall w, exists before after,
    stdout w =
    before ++ "360        65520           0                    -65520"
           ++ newline ++ after.
Proof.
  repeat split; try (vm_compute; reflexivity).
  intros w. unfold stdout. rewrite run_report.
  exists (unlines (firstn 16 report_head)),
         (unlines (skipn 17 report_head ++ report_colors)).
  vm_compute. reflexivity.
Qed.

(** C6: for every degree sample the difference [correct_value - old_value]
    is printed as a sign, [+] when it is non-negative and [-] when it is
    negative, followed by the digits of its absolute value; at 0 degrees it
    is printed as [+0]. *)
Theorem difference_is_signed (d : Z) :
  In d test_degrees ->
  exists old correct,
    old_value original_factor d = Ok old /\
    (f <- factor_65536 ;; correct_value f d) = Ok correct /\
    (f <- factor_65536 ;; diff original_factor f d) = Ok (correct - old)%Z /\
    (f <- factor_65536 ;; comparison_row original_factor f d) =
    Ok (format_int (spec_left 10) d ++ " " ++
        format_int (spec_left 15) old ++ " " ++
        format_int (spec_left 20) correct ++ " " ++
        (if (0 <=? correct - old)%Z then "+" else "-") ++
        dec_digits (Z.abs_N (correct - old))) /\
    (d = 0%Z -> format_int spec_plus_d (correct - old) = "+0").
Proof.
  intros Hd. rewrite factor_65536_value. unfold bind at 1 2 3.
  assert (Hv : exists old correct,
             old_value original_factor d = Ok old /\
             correct_value (S754_finite false 6405119470038039 (-45)) d
             = Ok correct /\
             (d = 0%Z -> (correct - old)%Z = 0%Z)).
  { each_member Hd; do 2 eexists; repeat split;
      first [vm_compute; reflexivity | discriminate]. }
  destruct Hv as (old & correct & Hold & Hcorrect & Hzero).
  exists old, correct. repeat split; try assumption.
  - unfold diff. rewrite Hold, Hcorrect. reflexivity.
  - apply (comparison_row_signed _ _ _ _ _ Hold Hcorrect).
  - intros H0. rewrite (Hzero H0). reflexivity.
Qed.

Lemma difference_is_signed_witness :
  exists old correct,
    old_value original_factor 0 = Ok old /\
    (f <- factor_65536 ;; correct_value f 0) = Ok correct /\
    (f <- factor_65536 ;; diff original_factor f 0) = Ok (correct - old)%Z /\
    (f <- factor_65536 ;; comparison_row original_factor f 0) =
    Ok (format_int (spec_left 10) 0 ++ " " ++
        format_int (spec_left 15) old ++ " " ++
        format_int (spec_left 20) correct ++ " " ++
        (if (0 <=? correct - old)%Z then "+" else "-") ++
        dec_digits (Z.abs_N (correct - old))) /\
    (0%Z = 0%Z -> format_int spec_plus_d (correct - old) = "+0").
Proof.
  apply (difference_is_signed 0). simpl. tauto.
Defined.

(** C9: for every integer degree from 0 to 360 the conversion before the
    wrap is at least the old one, [int(d * factor_65536)] being
    [floor(d * 65536 / 360)] and [int(d * 182.0)] being [182 * d];
    hence on every sample but 360 the printed difference is
    non-negative. *)
Theorem correct_dominates_old (d : Z) :
  (0 <= d <= 360)%Z ->
  exists p o,
    (f <- factor_65536 ;; pre_wrap_value f d) = Ok p /\
    old_value original_factor d = Ok o /\
    p = (d * 65536 / 360)%Z /\
    o = (d * 182)%Z /\
    (o <= p)%Z /\
    (In d test_degrees -> d <> 360%Z ->
     exists n, (f <- factor_65536 ;; diff original_factor f d) = Ok n /\
               (0 <= n)%Z).
Proof.
  intros Hd.
  assert (Hc : dominates d = true).
  { apply (checked_upto dominates 361 dominates_upto_360). simpl. lia. }
  unfold dominates in Hc.
  destruct (f <- factor_65536 ;; pre_wrap_value f d) as [p | ];
    [ | discriminate].
  destruct (old_value original_factor d) as [o | ]; [ | discriminate].
  apply andb_prop in Hc. destruct Hc as [Hc Ho].
  apply andb_prop in Hc. destruct Hc as [Hle Hp].
  apply Z.leb_le in Hle. apply Z.eqb_eq in Hp, Ho.
  exists p, o. repeat split; try assumption.
  intros Hin Hne.
  each_member Hin; try congruence;
    (eexists; split; [vm_compute; reflexivity | lia]).
Qed.

Lemma correct_dominates_old_witness :
  exists p o,
    (f <- factor_65536 ;; pre_wrap_value f 180) = Ok p /\
    old_value original_factor 180 = Ok o /\
    p = (180 * 65536 / 360)%Z /\
    o = (180 * 182)%Z /\
    (o <= p)%Z /\
    (In 180%Z test_degrees -> 180%Z <> 360%Z ->
     exists n, (f <- factor_65536 ;; diff original_factor f 180) = Ok n /\
               (0 <= n)%Z).
Proof.
  apply (correct_dominates_old 180). lia.
Defined.

(** *** The table of named colours *)

(** C4: Pink, at 350 degrees, is converted to
    [floor(350 * 65536 / 360) mod 65536 = 63715], which is written [0xF8E3]
    in its row. *)
Theorem pink_row :
  In ("Pink", 350%Z) (items colors) /\
  (f <- factor_65536 ;; lifx_value f 350) = Ok 63715%Z /\
  exact_hue 350 = 63715%Z /\
  "0x" ++ format_int (spec_zero_X 4) 63715 = "0xF8E3" /\
  (f <- factor_65536 ;; color_row f "Pink" 350) =
  Ok ("Pink       350" ++ degree_sign ++ " " ++ arrow ++ " 63715 (0xF8E3)").
Proof.
  repeat split; try (vm_compute; reflexivity).
  vm_compute. tauto.
Qed.

(** C5: the table holds exactly the eight pairs Red=0, Orange=39,
    Yellow=60, Green=120, Cyan=180, Blue=240, Purple=275 and Pink=350, in
    that order, each degree an integer of [0, 360); and the run ends with
    one row for each pair, in that same order, each row starting with the
    name of its pair. *)
Theorem colors_in_insertion_order :
  items colors =
  [("Red", 0); ("Orange", 39); ("Yellow", 60); ("Green", 120);
   ("Cyan", 180); ("Blue", 240); ("Purple", 275); ("Pink", 350)]%Z /\
  List.length (items colors) = 8%nat /\
  Forall (fun kv => (0 <= snd kv < 360)%Z) (items colors) /\
  Forall2 (fun kv row =>
             (f <- factor_65536 ;; color_row f (fst kv) (snd kv)) = Ok row /\
             String.prefix (fst kv) row = true)
          (items colors) report_colors /\
  forall w, stdout w = unlines report_head ++ unlines report_colors.
Proof.
  split; [reflexivity | ].
  split; [reflexivity | ].
  split.
  - repeat constructor; simpl; lia.
  - split.
    + repeat constructor; vm_compute; reflexivity.
    + intros w. unfold stdout. rewrite run_report.
      vm_compute. reflexivity.
Qed.


(** *** Runs *)


(** ** Further properties of the conversions and of the rows *)

Lemma exact_on_turns_checked :
  forallb exact_on_turns (upto (Z.to_nat 7201)) = true.
Proof. vm_compute. reflexivity. Qed.

Lemma old_on_turns_checked :
  forallb old_on_turns (upto (Z.to_nat 7201)) = true.
Proof. vm_compute. reflexivity. Qed.

Lemma diff_closed_checked : forallb diff_closed (upto 360) = true.
Proof. vm_compute. reflexivity. Qed.

Lemma columns_aligned_checked : forallb columns_aligned (upto 361) = true.
Proof. vm_compute. reflexivity. Qed.

Lemma fields_aligned_checked : forallb fields_aligned (upto 361) = true.
Proof. vm_compute. reflexivity. Qed.

Lemma exact_hue_bound (d : Z) : (0 <= exact_hue d <= 65535)%Z.
Proof.
  unfold exact_hue.
  pose proof (Z.mod_pos_bound (d * 65536 / 360) 65536). lia.
Qed.

Lemma exact_hue_turn (d : Z) : exact_hue (d + 360) = exact_hue d.
Proof.
  unfold exact_hue.
  replace ((d + 360) * 65536)%Z with (d * 65536 + 65536 * 360)%Z by lia.
  rewrite Z.div_add by lia.
  replace (d * 65536 / 360 + 65536)%Z
    with (d * 65536 / 360 + 1 * 65536)%Z by lia.
  apply Z.mod_add. lia.
Qed.

(** Below a full turn nothing wraps, and a degree more is at least 182
    more. *)
Lemma exact_hue_step (a b : Z) :
  (0 <= a < b)%Z -> (b < 360)%Z -> (exact_hue a + 182 <= exact_hue b)%Z.
Proof.
  intros Hab Hb. unfold exact_hue.
  assert (Hlt : forall d, (0 <= d < 360)%Z ->
                          (0 <= d * 65536 / 360 < 65536)%Z).
  { intros d Hd. split.
    - apply Z.div_pos; lia.
    - apply Z.div_lt_upper_bound; lia. }
  rewrite !Z.mod_small by (apply Hlt; lia).
  assert (Hstep : (a * 65536 / 360 + 182 = (a * 65536 + 182 * 360) / 360)%Z)
    by (rewrite Z.div_add; lia).
  rewrite Hstep. apply Z.div_le_mono; lia.
Qed.

Lemma on_turns_exact (d : Z) :
  (-3600 <= d <= 3600)%Z ->
  (f <- factor_65536 ;; correct_value f d) = Ok (exact_hue d).
Proof.
  intros Hd. apply result_eqb_eq.
  replace d with (turns (d + 3600)) by (unfold turns; lia).
  apply (checked_upto exact_on_turns _ exact_on_turns_checked). lia.
Qed.

Lemma on_turns_old (d : Z) :
  (-3600 <= d <= 3600)%Z ->
  old_value original_factor d = Ok (182 * d)%Z.
Proof.
  intros Hd. apply result_eqb_eq.
  replace d with (turns (d + 3600)) at 1 by (unfold turns; lia).
  replace (182 * d)%Z with (182 * turns (d + 3600))%Z by (unfold turns; lia).
  apply (checked_upto old_on_turns _ old_on_turns_checked). lia.
Qed.

(** X1: on every integer degree from -3600 to 3600 the conversion of both
    loops returns exactly [floor(d * 65536 / 360) mod 65536], negative
    degrees included, and the value lies in [0, 65535]. *)
Theorem correct_value_exact (d : Z) :
  (-3600 <= d <= 3600)%Z ->
  (f <- factor_65536 ;; correct_value f d) = Ok (exact_hue d) /\
  (f <- factor_65536 ;; lifx_value f d) = Ok (exact_hue d) /\
  (0 <= exact_hue d <= 65535)%Z.
Proof.
  intros Hd. pose proof (on_turns_exact d Hd) as H.
  repeat split; try exact H; apply exact_hue_bound.
Qed.

Lemma correct_value_exact_witness :
  (f <- factor_65536 ;; correct_value f (-90)) = Ok (exact_hue (-90)) /\
  (f <- factor_65536 ;; lifx_value f (-90)) = Ok (exact_hue (-90)) /\
  (0 <= exact_hue (-90) <= 65535)%Z.
Proof. apply (correct_value_exact (-90)). lia. Defined.

(** X2: the conversion has period 360: a degree between -3600 and 3240
    and the same degree a full turn later are converted to the same
    value. *)
Theorem correct_value_periodic (d : Z) :
  (-3600 <= d <= 3240)%Z ->
  exists v,
    (f <- factor_65536 ;; correct_value f d) = Ok v /\
    (f <- factor_65536 ;; correct_value f (d + 360)) = Ok v.
Proof.
  intros Hd. exists (exact_hue d). split.
  - apply on_turns_exact. lia.
  - rewrite <- exact_hue_turn. apply on_turns_exact. lia.
Qed.

Lemma correct_value_periodic_witness :
  exists v,
    (f <- factor_65536 ;; correct_value f (-350)) = Ok v /\
    (f <- factor_65536 ;; correct_value f (-350 + 360)) = Ok v.
Proof. apply (correct_value_periodic (-350)). lia. Defined.

(** X3: below a full turn the conversion is strictly increasing, two
    distinct degrees of [0, 360) being at least 182 apart, so that no two
    of them are converted to the same value. *)
Theorem correct_value_increasing (a b : Z) :
  (0 <= a < b)%Z -> (b < 360)%Z ->
  exists va vb,
    (f <- factor_65536 ;; correct_value f a) = Ok va /\
    (f <- factor_65536 ;; correct_value f b) = Ok vb /\
    (va + 182 <= vb)%Z.
Proof.
  intros Hab Hb. exists (exact_hue a), (exact_hue b).
  repeat split; try (apply on_turns_exact; lia).
  apply exact_hue_step; assumption.
Qed.

Lemma correct_value_increasing_witness :
  exists va vb,
    (f <- factor_65536 ;; correct_value f 358) = Ok va /\
    (f <- factor_65536 ;; correct_value f 359) = Ok vb /\
    (va + 182 <= vb)%Z.
Proof. apply (correct_value_increasing 358 359); lia. Defined.

(** X4: the old conversion is [182 * d] on every degree from -3600 to
    3600 and is never reduced: its value is in [0, 65535] exactly when the
    degree is between 0 and 360. *)
Theorem old_value_never_wraps (d : Z) :
  (-3600 <= d <= 3600)%Z ->
  exists v,
    old_value original_factor d = Ok v /\
    v = (182 * d)%Z /\
    ((0 <= v <= 65535)%Z <-> (0 <= d <= 360)%Z).
Proof.
  intros Hd. exists (182 * d)%Z.
  split; [apply on_turns_old; exact Hd | ].
  split; [reflexivity | lia].
Qed.

Lemma old_value_never_wraps_witness :
  exists v,
    old_value original_factor 361 = Ok v /\
    v = (182 * 361)%Z /\
    ((0 <= v <= 65535)%Z <-> (0 <= 361 <= 360)%Z).
Proof. apply (old_value_never_wraps 361). lia. Defined.

(** X5: below a full turn the difference between the two conversions is
    [floor(2 * d / 45)], which is between 0 and 15. *)
Theorem diff_below_a_turn (d : Z) :
  (0 <= d < 360)%Z ->
  (f <- factor_65536 ;; diff original_factor f d) = Ok (2 * d / 45)%Z /\
  (0 <= 2 * d / 45 <= 15)%Z.
Proof.
  intros Hd. split.
  - apply result_eqb_eq.
    apply (checked_upto diff_closed 360 diff_closed_checked). simpl. lia.
  - split.
    + apply Z.div_pos; lia.
    + apply Z.lt_succ_r, Z.div_lt_upper_bound; lia.
Qed.

Lemma diff_below_a_turn_witness :
  (f <- factor_65536 ;; diff original_factor f 359) = Ok (2 * 359 / 45)%Z /\
  (0 <= 2 * 359 / 45 <= 15)%Z.
Proof. apply (diff_below_a_turn 359). lia. Defined.

(** X6: whatever non-negative factor is used, a value returned for a
    non-negative degree lies in [0, 65535]; it is the truncated product
    reduced modulo 65536. *)
Theorem lifx_value_is_u16 (f : float) (d v : Z) :
  plain f -> (0 <= d)%Z ->
  lifx_value f d = Ok v ->
  (0 <= v <= 65535)%Z /\ correct_value f d = Ok v /\
  exists n, pre_wrap_value f d = Ok n /\ v = (n mod 65536)%Z.
Proof.
  intros Hf Hd Hv.
  change (correct_value f d = Ok v) in Hv.
  assert (Hfin : forall s, int_mul d f <> Ok (S754_infinity s)).
  { intros s Hs. unfold correct_value in Hv. rewrite Hs in Hv.
    destruct s; discriminate Hv. }
  pose proof (orders_agree f d Hf Hd Hfin) as Hsame.
  split; [ | split; [exact Hv | ]].
  - rewrite Hsame in Hv. unfold truncate_then_wrap in Hv.
    destruct (int_mul d f) as [x | e]; [ | discriminate Hv].
    unfold bind in Hv.
    destruct (to_int x) as [n | e]; [ | discriminate Hv].
    injection Hv as <-.
    pose proof (Z.mod_pos_bound n 65536). lia.
  - rewrite Hsame in Hv. unfold truncate_then_wrap in Hv.
    unfold pre_wrap_value.
    destruct (int_mul d f) as [x | e]; [ | discriminate Hv].
    unfold bind in Hv |- *.
    destruct (to_int x) as [n | e]; [ | discriminate Hv].
    injection Hv as <-. exists n. split; reflexivity.
Qed.

Lemma lifx_value_is_u16_witness :
  (0 <= 63715 <= 65535)%Z /\
  correct_value (S754_finite false 6405119470038039 (-45)) 350 = Ok 63715%Z /\
  exists n,
    pre_wrap_value (S754_finite false 6405119470038039 (-45)) 350 = Ok n /\
    63715%Z = (n mod 65536)%Z.
Proof.
  apply (lifx_value_is_u16 (S754_finite false 6405119470038039 (-45)) 350).
  - unfold plain. repeat split; reflexivity || lia.
  - lia.
  - vm_compute. reflexivity.
Defined.

(** X7: when the product of the degree and the factor overflows to
    infinity, the wrapped conversion raises [ValueError] (the remainder of
    infinity is not a number) while the plain truncation raises
    [OverflowError]. *)
Theorem overflowing_product_raises (f : float) (d : Z) (s : bool) :
  int_mul d f = Ok (S754_infinity s) ->
  correct_value f d = Raise ValueError /\
  lifx_value f d = Raise ValueError /\
  old_value f d = Raise OverflowError.
Proof.
  intros H. unfold correct_value, lifx_value, old_value. rewrite H.
  destruct s; repeat split; reflexivity.
Qed.

Lemma overflowing_product_raises_witness :
  correct_value (S754_finite false 6405119470038039 (-45)) (10 ^ 308)
  = Raise ValueError /\
  lifx_value (S754_finite false 6405119470038039 (-45)) (10 ^ 308)
  = Raise ValueError /\
  old_value (S754_finite false 6405119470038039 (-45)) (10 ^ 308)
  = Raise OverflowError.
Proof.
  apply (overflowing_product_raises _ _ false).
  vm_compute. reflexivity.
Defined.

Lemma str_len_app (a b : string) :
  str_len (a ++ b) = (str_len a + str_len b)%nat.
Proof.
  induction a as [ | c a IH]; simpl; [reflexivity | ].
  destruct (continuation c); simpl; rewrite IH; reflexivity.
Qed.

Lemma str_len_spaces (n : nat) : str_len (str_repeat " " n) = n.
Proof. induction n as [ | n IH]; simpl; [ | rewrite IH]; reflexivity. Qed.

Lemma str_len_pad_left (w : nat) (s : string) :
  str_len (pad AlignLeft w s) = Nat.max w (str_len s).
Proof.
  unfold pad. rewrite str_len_app, str_len_spaces. lia.
Qed.

(** X8: on every degree from 0 to 360 the row of the comparison table is
    its three columns, 48 characters wide as in the header, followed by the
    signed difference. *)
Theorem comparison_row_layout (d : Z) :
  (0 <= d <= 360)%Z ->
  exists old correct,
    (f <- factor_65536 ;; comparison_row original_factor f d) =
    Ok (comparison_columns d old correct ++ signed_decimal (correct - old)) /\
    str_len (comparison_columns d old correct) = 48%nat /\
    str_len header_columns = 48%nat.
Proof.
  intros Hd.
  assert (Hc : columns_aligned d = true).
  { apply (checked_upto columns_aligned 361 columns_aligned_checked).
    simpl. lia. }
  unfold columns_aligned in Hc.
  destruct (old_value original_factor d) as [old | ]; [ | discriminate].
  destruct (f <- factor_65536 ;; correct_value f d) as [correct | ];
    [ | discriminate].
  destruct (f <- factor_65536 ;; comparison_row original_factor f d)
    as [row | ]; [ | discriminate].
  apply andb_prop in Hc. destruct Hc as [Hrow Hlen].
  apply String.eqb_eq in Hrow. apply Nat.eqb_eq in Hlen.
  exists old, correct. subst row. repeat split. exact Hlen.
Qed.

Lemma comparison_row_layout_witness :
  exists old correct,
    (f <- factor_65536 ;; comparison_row original_factor f 7) =
    Ok (comparison_columns 7 old correct ++ signed_decimal (correct - old)) /\
    str_len (comparison_columns 7 old correct) = 48%nat /\
    str_len header_columns = 48%nat.
Proof. apply (comparison_row_layout 7). lia. Defined.

(** X9: on every degree from 0 to 360 and for every name, the row of a
    named colour is the name padded to 10 characters, never cut, followed
    by 22 characters of fields. *)
Theorem color_row_layout (name : string) (d : Z) :
  (0 <= d <= 360)%Z ->
  exists v row,
    (f <- factor_65536 ;; lifx_value f d) = Ok v /\
    (f <- factor_65536 ;; color_row f name d) = Ok row /\
    row = format_str AlignLeft 10 name ++ color_fields d v /\
    str_len row = (Nat.max 10 (str_len name) + 22)%nat.
Proof.
  intros Hd.
  assert (Hc : fields_aligned d = true).
  { apply (checked_upto fields_aligned 361 fields_aligned_checked).
    simpl. lia. }
  unfold fields_aligned in Hc.
  rewrite factor_65536_value in *. unfold bind at 1 in Hc.
  unfold bind at 1 2. unfold color_row.
  destruct (lifx_value _ d) as [v | ]; [ | discriminate].
  apply Nat.eqb_eq in Hc.
  exists v. eexists. repeat split.
  unfold bind.
  change (str_len (format_str AlignLeft 10 name ++ color_fields d v)
          = (Nat.max 10 (str_len name) + 22)%nat).
  rewrite str_len_app, Hc. unfold format_str.
  rewrite str_len_pad_left. reflexivity.
Qed.

Lemma color_row_layout_witness :
  exists v row,
    (f <- factor_65536 ;; lifx_value f 275) = Ok v /\
    (f <- factor_65536 ;; color_row f "Purple" 275) = Ok row /\
    row = format_str AlignLeft 10 "Purple" ++ color_fields 275 v /\
    str_len row = (Nat.max 10 (str_len "Purple") + 22)%nat.
Proof. apply (color_row_layout "Purple" 275). lia. Defined.

Section Overflow.

Local Open Scope Z_scope.

(** An integer of at least [2^1024] in magnitude rounds to infinity. *)
Lemma binary_round_overflow (s : bool) (p : positive) :
  2 ^ 1024 <= Zpos p -> binary_round prec emax s p 0 = S754_infinity s.
Proof.
  intros Hp.
  assert (Hdig : 1025 <= Zdigits2 (Zpos p)).
  { destruct (Z.leb_spec (Zdigits2 (Zpos p)) 1024) as [Hle | Hgt]; [ | lia].
    apply Zdigits2_le in Hle; lia. }
  set (dg := Zdigits2 (Zpos p)) in *.
  assert (Hlow : 2 ^ (dg - 1) <= Zpos p).
  { destruct (Z.leb_spec (2 ^ (dg - 1)) (Zpos p)) as [Hle | Hgt]; [exact Hle | ].
    apply Zdigits2_le in Hgt; [ | lia | lia]. fold dg in Hgt. lia. }
  assert (Hup : Zpos p < 2 ^ dg) by (apply Zdigits2_le; unfold dg; lia).
  unfold binary_round.
  change (Zpos (digits2_pos p)) with dg.
  assert (Hf : fexp prec emax (dg + 0) = dg - 53) by (rewrite fexp_eq; lia).
  rewrite Hf. unfold shl_align.
  replace (dg - 53 - 0) with (dg - 53) by lia.
  destruct (dg - 53) as [ | n | n] eqn:Hn; try lia.
  unfold binary_round_aux.
  assert (Hshift : fexp prec emax (Zdigits2 (Zpos p) + 0) - 0 = Zpos n)
    by (fold dg; lia).
  pose proof (shr_fexp_m (Zpos p) 0 loc_Exact ltac:(lia)) as [_ Hgt].
  rewrite Hshift in Hgt.
  destruct Hgt as [Hm1 He1]; [lia | ].
  destruct (shr_fexp prec emax (Zpos p) 0 loc_Exact) as [r1 e1].
  simpl fst in *; simpl snd in *.
  assert (Hpow : 0 < 2 ^ Zpos n) by (apply Z.pow_pos_nonneg; lia).
  assert (Hsplit : 2 ^ dg = 2 ^ 53 * 2 ^ Zpos n).
  { rewrite <- Z.pow_add_r by lia. f_equal. lia. }
  assert (Hsplit' : 2 ^ (dg - 1) = 2 ^ 52 * 2 ^ Zpos n).
  { rewrite <- Z.pow_add_r by lia. f_equal. lia. }
  assert (Hr1 : 2 ^ 52 <= shr_m r1 < 2 ^ 53).
  { rewrite Hm1. split.
    - apply Z.div_le_lower_bound; lia.
    - apply Z.div_lt_upper_bound; lia. }
  pose proof (round_nearest_even_near (shr_m r1) (loc_of_shr_record r1)) as Hr.
  set (m2 := round_nearest_even (shr_m r1) (loc_of_shr_record r1)) in *.
  pose proof (shr_fexp_m m2 e1 loc_Exact ltac:(lia)) as [Hle Hgt].
  pose proof (fexp_eq (Zdigits2 m2 + e1)) as Hf2.
  assert (H3 : 0 < shr_m (fst (shr_fexp prec emax m2 e1 loc_Exact)) /\
               972 <= snd (shr_fexp prec emax m2 e1 loc_Exact)).
  { destruct (Z.eq_dec m2 (2 ^ 53)) as [Heq | Hne].
    - rewrite Heq in *. rewrite Zdigits2_pow2_53 in *.
      destruct Hgt as [-> ->]; [lia | ].
      replace (fexp prec emax (54 + e1) - e1) with 1 by lia.
      change (2 ^ 53 / 2 ^ 1) with (2 ^ 52). lia.
    - assert (Hd2 : Zdigits2 m2 <= 53) by (apply Zdigits2_le; lia).
      destruct Hle as [-> ->]; lia. }
  destruct (shr_fexp prec emax m2 e1 loc_Exact) as [r3 e3].
  simpl fst in *; simpl snd in *.
  destruct (shr_m r3) as [ | q | q]; try lia.
  replace (e3 <=? emax - prec) with false; [reflexivity | ].
  symmetry. apply Z.leb_gt. unfold emax, prec. lia.
Qed.

Lemma of_int_overflow (n : Z) :
  2 ^ 1024 <= Z.abs n -> of_int n = Raise OverflowError.
Proof.
  intros Hn. unfold of_int, binary_normalize.
  destruct n as [ | p | p]; simpl Z.abs in Hn.
  - assert (0 < 2 ^ 1024) by (apply Z.pow_pos_nonneg; lia). lia.
  - rewrite binary_round_overflow by exact Hn. reflexivity.
  - rewrite binary_round_overflow by exact Hn. reflexivity.
Qed.

End Overflow.

(** X10: a degree of magnitude [2^1024] or more cannot be converted to a
    float: both conversions, and so both rows, raise [OverflowError]. *)
Theorem huge_degree_raises (f0 f : float) (d : Z) :
  (2 ^ 1024 <= Z.abs d)%Z ->
  old_value f0 d = Raise OverflowError /\
  correct_value f d = Raise OverflowError /\
  lifx_value f d = Raise OverflowError /\
  comparison_row f0 f d = Raise OverflowError /\
  (forall name, color_row f name d = Raise OverflowError).
Proof.
  intros Hd. pose proof (of_int_overflow d Hd) as H.
  unfold comparison_row, color_row, old_value, correct_value, lifx_value,
    int_mul.
  rewrite H. repeat split.
Qed.

Lemma huge_degree_raises_witness :
  old_value original_factor (- 2 ^ 1024) = Raise OverflowError /\
  correct_value original_factor (- 2 ^ 1024) = Raise OverflowError /\
  lifx_value original_factor (- 2 ^ 1024) = Raise OverflowError /\
  comparison_row original_factor original_factor (- 2 ^ 1024)
  = Raise OverflowError /\
  (forall name, color_row original_factor name (- 2 ^ 1024)
                = Raise OverflowError).
Proof.
  apply (huge_degree_raises original_factor original_factor (- 2 ^ 1024)).
  vm_compute. discriminate.
Defined.

Section Dicts.

Local Open Scope list_scope.

Lemma dict_set_fresh (d : dict) (k : string) (v : Z) :
  ~ In k (map fst d) -> dict_set d k v = d ++ [(k, v)].
Proof.
  induction d as [ | [k' v'] d IH]; simpl; intros Hk; [reflexivity | ].
  destruct (String.eqb_spec k k') as [-> | Hne].
  - exfalso. apply Hk. now left.
  - rewrite IH; [reflexivity | ]. intros Hin. apply Hk. now right.
Qed.

Lemma dict_set_keys (d : dict) (k : string) (v : Z) :
  In k (map fst d) -> map fst (dict_set d k v) = map fst d.
Proof.
  induction d as [ | [k' v'] d IH]; simpl; intros Hk; [contradiction | ].
  destruct (String.eqb_spec k k') as [-> | Hne]; [reflexivity | ].
  simpl. rewrite IH; [reflexivity | ].
  destruct Hk as [Heq | Hin]; [congruence | exact Hin].
Qed.

Lemma dict_set_NoDup (d : dict) (k : string) (v : Z) :
  NoDup (map fst d) -> NoDup (map fst (dict_set d k v)).
Proof.
  intros Hd. destruct (in_dec string_dec k (map fst d)) as [Hin | Hout].
  - now rewrite dict_set_keys.
  - rewrite dict_set_fresh, map_app by exact Hout. simpl.
    apply NoDup_app; [exact Hd | repeat constructor; intros [] | ].
    intros x Hx [<- | []]. exact (Hout Hx).
Qed.

Lemma fold_set_NoDup (l : list (string * Z)) :
  forall d, NoDup (map fst d) ->
    NoDup (map fst (fold_left (fun d kv => dict_set d (fst kv) (snd kv)) l d)).
Proof.
  induction l as [ | kv l IH]; simpl; intros d Hd; [exact Hd | ].
  apply IH, dict_set_NoDup, Hd.
Qed.

Lemma fold_set_distinct (l : list (string * Z)) :
  forall d, NoDup (map fst (d ++ l)) ->
    fold_left (fun d kv => dict_set d (fst kv) (snd kv)) l d = d ++ l.
Proof.
  induction l as [ | [k v] l IH]; simpl; intros d Hd.
  - now rewrite app_nil_r.
  - rewrite map_app in Hd. simpl in Hd.
    rewrite dict_set_fresh.
    + rewrite IH; rewrite <- app_assoc; [reflexivity | ].
      simpl. now rewrite map_app.
    + apply NoDup_remove_2 in Hd. intros Hin. apply Hd.
      apply in_or_app. now left.
Qed.

End Dicts.

(** A dict display never yields a key twice. *)
Lemma dict_display_keys_distinct (l : list (string * Z)) :
  NoDup (map fst (items (dict_display l))).
Proof.
  unfold items, dict_display. apply fold_set_NoDup. constructor.
Qed.

(** X11: when the keys written in a dict display are pairwise distinct,
    its items are exactly the pairs written, in the order written: none is
    dropped, replaced or moved. *)
Theorem dict_display_order (l : list (string * Z)) :
  NoDup (map fst l) ->
  items (dict_display l) = l /\
  List.length (items (dict_display l)) = List.length l.
Proof.
  intros Hl. unfold items, dict_display.
  rewrite fold_set_distinct by exact Hl. split; reflexivity.
Qed.

Lemma dict_display_order_witness :
  items (dict_display [("Red", 0%Z); ("Pink", 350%Z)])
  = [("Red", 0%Z); ("Pink", 350%Z)] /\
  List.length (items (dict_display [("Red", 0%Z); ("Pink", 350%Z)]))
  = List.length [("Red", 0%Z); ("Pink", 350%Z)].
Proof.
  apply (dict_display_order [("Red", 0%Z); ("Pink", 350%Z)]).
  simpl. repeat constructor; simpl; intuition discriminate.
Defined.
